(** * Route reconstruction handlers of route-tracer

    A shallow embedding of the three serverless handlers of the repository,
    from the point where the oracle's JSON answer has been parsed:

    - [Extract]  : api/extract.js            (interpolation below 50 points)
    - [Part000]  : src/unnamed/part_000      (resampling below 100 points)
    - [Part001]  : src/unnamed/part_001      (OSRM road snapping, nearest
                   neighbour elevation, smoothing, fallback interpolation)
    - [Front]    : the part the three files share before that point (request
                   checks, oracle answer, code fences, parsing), with
                   [String.prototype.trim] and [JSON.parse] as parameters

    Numbers.  A JavaScript number is modelled by [JS.value]: an exact real
    number, [NaN], or the value [undefined] of an absent field (which every
    arithmetic operator turns into [NaN]).  The rounding and the overflow of
    binary64 arithmetic are not modelled; no operation of the handlers divides
    by zero, so the infinities only occur as the initial [minDist] of the
    nearest neighbour scan, which has a type of its own. *)

From Stdlib Require Import Reals Lra Lia ZArith String List.
From Stdlib Require Import Ascii DecimalString.
From stdpp Require Import base list.
Import ListNotations.

Open Scope R_scope.

(** ** JavaScript values and operators *)

Module JS.

Inductive value : Type :=
| Undefined
| NaN
| Num (r : R).

(** [a + b], [a - b], [a * b], [a / b] on numbers ([undefined] coerces to
    [NaN]). *)
Definition add (a b : value) : value :=
  match a, b with Num x, Num y => Num (x + y) | _, _ => NaN end.

Definition sub (a b : value) : value :=
  match a, b with Num x, Num y => Num (x - y) | _, _ => NaN end.

Definition mul (a b : value) : value :=
  match a, b with Num x, Num y => Num (x * y) | _, _ => NaN end.

Definition div (a b : value) : value :=
  match a, b with Num x, Num y => Num (x / y) | _, _ => NaN end.

(** [a ** 2] *)
Definition sqr (a : value) : value := mul a a.

(** [Math.sqrt(a)] *)
Definition sqrt (a : value) : value :=
  match a with
  | Num x => if Rle_dec 0 x then Num (R_sqrt.sqrt x) else NaN
  | _ => NaN
  end.

(** [a < b]: false as soon as one side is [NaN]. *)
Definition lt (a b : value) : bool :=
  match a, b with
  | Num x, Num y => if Rlt_dec x y then true else false
  | _, _ => false
  end.

(** ToBoolean: [undefined], [NaN] and [0] are falsy. *)
Definition truthy (a : value) : bool :=
  match a with
  | Num x => if Req_dec_T x 0 then false else true
  | _ => false
  end.

(** [a || b] *)
Definition or (a b : value) : value := if truthy a then a else b.

(** [Math.round(a)]: the nearest integer, halves going up. *)
Definition round (a : value) : value :=
  match a with Num x => Num (IZR (Zfloor (x + / 2))) | _ => NaN end.

(** [Math.ceil(a)] *)
Definition ceil (a : value) : value :=
  match a with Num x => Num (IZR (Zceil x)) | _ => NaN end.

(** [Math.max(a, b)] *)
Definition max (a b : value) : value :=
  match a, b with Num x, Num y => Num (Rmax x y) | _, _ => NaN end.

(** An array length or a loop counter as a number. *)
Definition of_nat (n : nat) : value := Num (INR n).

(** The number of rounds of [for (let s = 0; s < n; s++)]: the naturals
    below [n], none when [n] is [NaN]. *)
Definition iterations (n : value) : nat :=
  match n with Num x => Z.to_nat (Zceil x) | _ => 0%nat end.

(** [s || d] on an optional string: the empty string is falsy. *)
Definition or_string (s : option string) (d : string) : string :=
  match s with
  | Some s' => if String.eqb s' "" then d else s'
  | None => d
  end.

(** [a || d] on an optional array: every array is truthy. *)
Definition or_array {A : Type} (a : option (list A)) (d : list A) : list A :=
  match a with Some l => l | None => d end.

(** [a + (b - a) * t] *)
Definition lerp (a b t : value) : value := add a (mul (sub b a) t).

End JS.

Import JS.

(** A point [[lat, lng, elev]] of the output polyline: a three element
    array, read by index. *)
Record point : Type := Pt { at0 : value; at1 : value; at2 : value }.

(** The body of a 200 response.  [total_miles_estimate] and [turn_by_turn]
    are only sent by part_001. *)
Module Body.
Record t : Type := Build {
  route_name : string;
  location : string;
  confidence : value;
  notes : string;
  total_miles_estimate : value;
  turn_by_turn : list string;
  waypoints : list point
}.
End Body.

(** What the handlers answer once the oracle's JSON has been parsed. *)
Inductive response : Type :=
| Unprocessable (error : string) (notes : option string)   (* status 422 *)
| Success (body : Body.t)                                   (* status 200 *)
| ServerError.                                              (* status 500, the outer catch *)

(** ** The two oracle-only handlers (api/extract.js and part_000) *)

(** The parsed oracle answer [routeData].  [waypoints] is [None] when the
    field is absent, null or not an array. *)
Module RouteData.
Record t : Type := Build {
  route_name : option string;
  location : option string;
  confidence : value;
  notes : option string;
  waypoints : option (list point)
}.
End RouteData.

(** The points pushed for one pair [(a, b)]:
    [for (let s = 0; s < steps; s++) { const t = s / steps; push(...) }] *)
Definition segment (steps : value) (a b : point) : list point :=
  map (fun s : nat =>
         let t := div (of_nat s) steps in
         Pt (lerp (at0 a) (at0 b) t) (lerp (at1 a) (at1 b) t) (lerp (at2 a) (at2 b) t))
      (seq 0 (iterations steps)).

(** [for (let i = 0; i < waypoints.length - 1; i++)] over the pairs
    [(waypoints[i], waypoints[i + 1])]. *)
Fixpoint segments (steps : value) (waypoints : list point) : list point :=
  match waypoints with
  | [] => []
  | a :: rest =>
      match rest with
      | [] => []
      | b :: _ => segment steps a b ++ segments steps rest
      end
  end.

(** The interpolation block of both handlers: below [threshold] points the
    list is replaced by the interpolated one, closed by
    [interpolated.push(waypoints[waypoints.length - 1])].  [None] stands for
    the empty list, where the source would push [undefined]; the handlers
    never get there. *)
Definition interpolate (threshold : nat) (steps : nat -> value)
    (waypoints : list point) : option (list point) :=
  if (length waypoints <? threshold)%nat then
    match last waypoints with
    | Some w => Some (segments (steps (length waypoints)) waypoints ++ [w])
    | None => None
    end
  else Some waypoints.

(** The 200 response of both handlers for the point list [waypoints]. *)
Definition body_of (routeData : RouteData.t) (waypoints : list point) : Body.t :=
  {| Body.route_name := or_string (RouteData.route_name routeData) "Extracted Route";
     Body.location := or_string (RouteData.location routeData) "Unknown";
     Body.confidence := or (RouteData.confidence routeData) (Num (1 / 2));
     Body.notes := or_string (RouteData.notes routeData) "";
     Body.total_miles_estimate := Undefined;
     Body.turn_by_turn := [];
     Body.waypoints := waypoints |}.

(** The validation and the response of both handlers. *)
Definition respond (interp : list point -> option (list point))
    (routeData : RouteData.t) : response :=
  match RouteData.waypoints routeData with
  | None =>
      Unprocessable "AI could not extract a valid route from this image"
        (Some (or_string (RouteData.notes routeData) "No details available"))
  | Some waypoints =>
      if (length waypoints <? 2)%nat then
        Unprocessable "AI could not extract a valid route from this image"
          (Some (or_string (RouteData.notes routeData) "No details available"))
      else
        match interp waypoints with
        | None => ServerError
        | Some waypoints' => Success (body_of routeData waypoints')
        end
  end.

(** api/extract.js, lines 133-169. *)
Module Extract.

(** [Math.max(3, Math.ceil(6 / (waypoints.length / 30)))] *)
Definition steps (n : nat) : value :=
  max (Num 3) (ceil (div (Num 6) (div (of_nat n) (Num 30)))).

Definition interpolated : list point -> option (list point) :=
  interpolate 50 steps.

Definition handler : RouteData.t -> response := respond interpolated.

End Extract.

(** src/unnamed/part_000, lines 144-181. *)
Module Part000.

(** [Math.max(150, waypoints.length * 3)] *)
Definition targetPoints (n : nat) : value :=
  max (Num 150) (mul (of_nat n) (Num 3)).

(** [Math.ceil(targetPoints / waypoints.length)] *)
Definition stepsPerSeg (n : nat) : value :=
  ceil (div (targetPoints n) (of_nat n)).

(** Lines 152-171: "ensure at least 100 points". *)
Definition interpolated : list point -> option (list point) :=
  interpolate 100 stepsPerSeg.

Definition handler : RouteData.t -> response := respond interpolated.

End Part000.

(** ** The road snapping handler (part_001) *)

Module Part001.

(** A key waypoint [{lat, lng, label, elevation_ft}] of the oracle. *)
Record waypoint : Type := Waypoint {
  lat : value;
  lng : value;
  label : option string;
  elevation_ft : value
}.

(** The parsed oracle answer [routeInfo].  [key_waypoints] is [None] when
    the field is absent or null. *)
Record routeInfo : Type := RouteInfo {
  route_name : option string;
  location : option string;
  confidence : value;
  notes : option string;
  total_miles_estimate : value;
  turn_by_turn : option (list string);
  key_waypoints : option (list waypoint)
}.

(** A coordinate [[lng, lat]] of the routing engine. *)
Record coord : Type := Coord { c0 : value; c1 : value }.

(** One entry of [osrmData.routes]; [coordinates] is [None] when
    [geometry.coordinates] cannot be read as an array, which throws
    inside the [try]. *)
Record route : Type := Route { coordinates : option (list coord) }.

(** The outcome of [fetch(osrmUrl)] followed by [osrmResp.json()]: the
    request, the decoding or the reading of the answer throws, or the
    decoded [osrmData] with its [code] and [routes]. *)
Inductive osrm : Type :=
| Thrown
| OsrmData (code : string) (routes : option (list route)).

(** [wp.elevation_ft || 5300] *)
Definition elevation (wp : waypoint) : value := or (elevation_ft wp) (Num 5300).

(** [Math.sqrt((lat - wp.lat) ** 2 + (lng - wp.lng) ** 2)] *)
Definition distance (lat0 lng0 : value) (wp : waypoint) : value :=
  sqrt (add (sqr (sub lat0 (lat wp))) (sqr (sub lng0 (lng wp)))).

(** [minDist] starts at [Infinity] and then holds a computed distance. *)
Inductive bound : Type :=
| Infinity
| Dist (d : value).

(** [d < minDist] *)
Definition below (d : value) (minDist : bound) : bool :=
  match minDist with
  | Infinity => match d with Num _ => true | _ => false end
  | Dist m => lt d m
  end.

(** One round of [for (const wp of waypoints)] on [(minDist, nearestElev)]. *)
Definition scan (lat0 lng0 : value) (st : bound * value) (wp : waypoint)
  : bound * value :=
  let d := distance lat0 lng0 wp in
  if below d (fst st) then (Dist d, elevation wp) else st.

(** The elevation found by the scan, from [minDist = Infinity] and
    [nearestElev = 5300]. *)
Definition nearestElev (lat0 lng0 : value) (waypoints : list waypoint) : value :=
  snd (fold_left (scan lat0 lng0) waypoints (Infinity, Num 5300)).

(** The callback of [osrmCoords.map]: [[lat, lng, nearestElev]]. *)
Definition locate (waypoints : list waypoint) (c : coord) : point :=
  let lat0 := c1 c in
  let lng0 := c0 c in
  Pt lat0 lng0 (nearestElev lat0 lng0 waypoints).

(** [routeGeometry[i][2] = (routeGeometry[i-1][2] + routeGeometry[i][2]
    + routeGeometry[i+1][2]) / 3], an update of the array in place.  The
    three reads are in range for every index the loop visits. *)
Definition smooth_at (i : nat) (routeGeometry : list point) : list point :=
  match routeGeometry !! (i - 1)%nat, routeGeometry !! i, routeGeometry !! (i + 1)%nat with
  | Some p, Some c, Some n =>
      <[ i := Pt (at0 c) (at1 c) (div (add (add (at2 p) (at2 c)) (at2 n)) (Num 3)) ]>
        routeGeometry
  | _, _, _ => routeGeometry
  end.

(** [count] rounds of a loop body from index [i] on. *)
Fixpoint loop {S : Type} (body : nat -> S -> S) (i count : nat) (s : S) : S :=
  match count with
  | O => s
  | Datatypes.S k => loop body (Datatypes.S i) k (body i s)
  end.

(** [for (let i = 1; i < routeGeometry.length - 1; i++)] *)
Definition smooth (routeGeometry : list point) : list point :=
  loop smooth_at 1 (length routeGeometry - 2) routeGeometry.

(** The elevation estimate of a snapped polyline: assignment, then
    smoothing. *)
Definition estimate (waypoints : list waypoint) (osrmCoords : list coord)
  : list point :=
  smooth (map (locate waypoints) osrmCoords).

(** The [try] block: [routeGeometry] stays undefined ([None]) unless the
    engine answered ['Ok'] with a first route whose geometry can be read. *)
Definition snap (waypoints : list waypoint) (o : osrm) : option (list point) :=
  match o with
  | Thrown => None
  | OsrmData code routes =>
      if String.eqb code "Ok" then
        match routes with
        | Some (r :: _) =>
            match coordinates r with
            | Some osrmCoords => Some (estimate waypoints osrmCoords)
            | None => None
            end
        | _ => None
        end
      else None
  end.

(** [Math.sqrt((b.lat - a.lat) ** 2 + (b.lng - a.lng) ** 2)] *)
Definition dist (a b : waypoint) : value :=
  sqrt (add (sqr (sub (lat b) (lat a))) (sqr (sub (lng b) (lng a)))).

(** [Math.max(5, Math.round(dist / 0.002))] *)
Definition steps (a b : waypoint) : value :=
  max (Num 5) (round (div (dist a b) (Num 0.002))).

(** The points pushed for the pair [(a, b)] by the inner loop. *)
Definition segment (a b : waypoint) : list point :=
  map (fun s : nat =>
         let t := div (of_nat s) (steps a b) in
         Pt (lerp (lat a) (lat b) t)
            (lerp (lng a) (lng b) t)
            (lerp (elevation a) (elevation b) t))
      (seq 0 (iterations (steps a b))).

(** [for (let i = 0; i < waypoints.length - 1; i++)] *)
Fixpoint segments (waypoints : list waypoint) : list point :=
  match waypoints with
  | [] => []
  | a :: rest =>
      match rest with
      | [] => []
      | b :: _ => segment a b ++ segments rest
      end
  end.

(** The point pushed after the loop. *)
Definition final (wp : waypoint) : point :=
  Pt (lat wp) (lng wp) (elevation wp).

(** The fallback block, lines 177-195.  [None]: reading the last entry of
    an empty list throws. *)
Definition fallback (waypoints : list waypoint) : option (list point) :=
  match last waypoints with
  | Some wp => Some (segments waypoints ++ [final wp])
  | None => None
  end.

(** [if (!routeGeometry || routeGeometry.length < 10)] *)
Definition usable (routeGeometry : option (list point)) : option (list point) :=
  match routeGeometry with
  | Some g => if (length g <? 10)%nat then None else Some g
  | None => None
  end.

(** The 200 response, lines 200-208. *)
Definition assemble (info : routeInfo) (routeGeometry : list point) : Body.t :=
  {| Body.route_name := or_string (route_name info) "Extracted Route";
     Body.location := or_string (location info) "Unknown";
     Body.confidence := or (confidence info) (Num (1 / 2));
     Body.notes := or_string (notes info) "";
     Body.total_miles_estimate := or (total_miles_estimate info) (Num 0);
     Body.turn_by_turn := or_array (turn_by_turn info) [];
     Body.waypoints := routeGeometry |}.

(** The handler from STEP 2 on (lines 125-208), given the parsed oracle
    answer and the outcome of the OSRM request. *)
Definition handler (info : routeInfo) (o : osrm) : response :=
  match key_waypoints info with
  | None => Unprocessable "Could not identify enough waypoints" (notes info)
  | Some waypoints =>
      if (length waypoints <? 2)%nat then
        Unprocessable "Could not identify enough waypoints" (notes info)
      else
        match usable (snap waypoints o) with
        | Some routeGeometry => Success (assemble info routeGeometry)
        | None =>
            match fallback waypoints with
            | Some routeGeometry => Success (assemble info routeGeometry)
            | None => ServerError
            end
        end
  end.

End Part001.

(** ** Reference formulations used by the statements *)

(** The three tap mean of the smoothing pass. *)
Definition mean3 (p c n : value) : value := div (add (add p c) n) (Num 3).

(** Smoothing read as a left to right recurrence: [prev] is the elevation
    already written at the index before the head of the list. *)
Fixpoint smoothed_from (prev : value) (l : list point) : list point :=
  match l with
  | [] => []
  | c :: rest =>
      match rest with
      | [] => [c]
      | n :: _ =>
          let e := mean3 prev (at2 c) (at2 n) in
          Pt (at0 c) (at1 c) e :: smoothed_from e rest
      end
  end.

Definition smoothed (l : list point) : list point :=
  match l with
  | [] => []
  | p :: rest => p :: smoothed_from (at2 p) rest
  end.

(** [Number.isFinite(a)] on the values of the model. *)
Definition isFinite (a : value) : bool :=
  match a with Num _ => true | _ => false end.

(** A key waypoint with finite numeric latitude and longitude. *)
Definition located (wp : Part001.waypoint) : bool :=
  isFinite (Part001.lat wp) && isFinite (Part001.lng wp).


(** The latitude and longitude of a point. *)
Definition position (p : point) : value * value := (at0 p, at1 p).

(** An engine coordinate [[lng, lat]] with its axes swapped. *)
Definition swapped (c : Part001.coord) : value * value := (Part001.c1 c, Part001.c0 c).



(** The Euclidean norm of the latitude and longitude differences of two
    located waypoints, in degrees. *)
Definition planar (a b : Part001.waypoint) : R :=
  match Part001.lat a, Part001.lng a, Part001.lat b, Part001.lng b with
  | Num x, Num y, Num x', Num y' =>
      R_sqrt.sqrt ((x' - x) * (x' - x) + (y' - y) * (y' - y))
  | _, _, _, _ => 0
  end.



(** ** Sample inputs *)

Module Sample.
Import Part001.

(** Two key waypoints on the meridian, ten degrees apart. *)
Definition south (e : value) : waypoint := Waypoint (Num 0) (Num 0) None e.
Definition north (e : value) : waypoint := Waypoint (Num 10) (Num 0) None e.

(** Engine coordinates [[lng, lat]] at either waypoint. *)
Definition at_south : coord := Coord (Num 0) (Num 0).
Definition at_north : coord := Coord (Num 0) (Num 10).

(** Elevations 3 and 9; the polyline visits south, south, north, south. *)
Definition hills : list waypoint := [south (Num 3); north (Num 9)].
Definition there_and_back : list coord := [at_south; at_south; at_north; at_south].

(** The elevations the scan assigns along [there_and_back]. *)
Definition assigned : list point :=
  [Pt (Num 0) (Num 0) (Num 3); Pt (Num 0) (Num 0) (Num 3);
   Pt (Num 10) (Num 0) (Num 9); Pt (Num 0) (Num 0) (Num 3)].


(** The southern waypoint lies at sea level. *)
Definition coast : list waypoint := [south (Num 0); north (Num 200)].



(** An oracle answer with every metadata field set, and confidence 0. *)
Definition unsure : routeInfo :=
  RouteInfo (Some "Flagstaff loop"%string) (Some "Boulder, CO"%string) (Num 0)
    (Some "steep"%string) (Num 12) (Some ["Start at Chautauqua"%string]) (Some hills).

(** The same answer in the shape read by api/extract.js. *)
Definition unsure_data : RouteData.t :=
  RouteData.Build (Some "Flagstaff loop"%string) (Some "Boulder, CO"%string) (Num 0)
    (Some "steep"%string)
    (Some [Pt (Num 0) (Num 0) (Num 3); Pt (Num 10) (Num 0) (Num 9)]).

(** The three waypoints of the Boulder scenario. *)
Definition boulder : list waypoint :=
  [Waypoint (Num 40) (Num (-105)) None (Num 5000);
   Waypoint (Num 40.01) (Num (-105)) None (Num 5100);
   Waypoint (Num 40.02) (Num (-105.01)) None (Num 5300)].

(** Ten engine coordinates, enough for the snapped geometry to be kept. *)
Definition ten : list coord := repeat at_south 8 ++ [at_north; at_south].

(** An oracle answer with nothing but its key waypoints. *)
Definition bare (waypoints : list waypoint) : routeInfo :=
  RouteInfo None None Undefined None Undefined None (Some waypoints).

End Sample.

(** ** Further formulations and samples *)




(** Three points on a line, with elevations. *)
Definition ramp : list point :=
  [Pt (Num 0) (Num 0) (Num 10); Pt (Num 1) (Num 0) (Num 20); Pt (Num 2) (Num 0) (Num 30)].

(** What part_000 makes of [ramp]: 50 steps per segment. *)
Definition ramp_resampled : list point :=
  segments (Part000.stepsPerSeg 3) ramp ++ [Pt (Num 2) (Num 0) (Num 30)].

(** What api/extract.js makes of [ramp]. *)
Definition ramp_interpolated : list point :=
  segments (Extract.steps 3) ramp ++ [Pt (Num 2) (Num 0) (Num 30)].

Module More.
Import Part001.



End More.

(** ** The front of the handlers: request checks, oracle answer, parsing *)

Module Front.

(** A JavaScript string of arbitrary text, as the list of its UTF-16 code
    units. *)
Definition text : Type := list N.

(** The code units of an ASCII literal. *)
Definition units (s : string) : text :=
  map Ascii.N_of_ascii (list_ascii_of_string s).

Definition fence : text := units "```".
Definition json : text := units "json".
Definition newline : text := [10%N].

(** [s.startsWith(p)], also the test of a literal at the head of [s]. *)
Fixpoint startsWith (p s : text) : bool :=
  match p, s with
  | [], _ => true
  | _ :: _, [] => false
  | a :: p', b :: s' => N.eqb a b && startsWith p' s'
  end.

(** [a === b] on texts. *)
Fixpoint same (a b : text) : bool :=
  match a, b with
  | [], [] => true
  | x :: a', y :: b' => N.eqb x y && same a' b'
  | _, _ => false
  end.

(** [s.replace(/^```(?:json)?\n?/, '')]: the fence at the head, then the
    word json if it follows, then one newline if it follows. *)
Definition strip_open (s : text) : text :=
  if startsWith fence s then
    let s1 := drop 3 s in
    let s2 := if startsWith json s1 then drop 4 s1 else s1 in
    if startsWith newline s2 then drop 1 s2 else s2
  else s.

(** [s.replace(/\n?```$/, '')]: the search goes from left to right for a
    position from which the rest of the text is a fence, or a newline and a
    fence, and removes that rest. *)
Fixpoint strip_close (s : text) : text :=
  if same s (newline ++ fence) || same s fence then []
  else match s with
       | [] => []
       | c :: s' => c :: strip_close s'
       end.

(** [if (cleaned.startsWith('```')) cleaned = cleaned.replace(...).replace(...)] *)
Definition unfence (cleaned : text) : text :=
  if startsWith fence cleaned then strip_close (strip_open cleaned) else cleaned.

(** One entry of [data.content]. *)
Record block : Type := Block { type : string; content_text : text }.

(** The outcome of the call of the oracle: the request, the decoding of
    its answer or the reading of its content throws, the answer is not ok,
    or the decoded content. *)
Inductive oracle : Type :=
| OracleThrown
| OracleNotOk (status : nat) (errText : text)
| OracleOk (content : list block).

(** [req.body]: [image] is [None] when the field is absent. *)
Record body : Type := Body { image : option string; mediaType : option string }.

(** The request: its method and its body, [None] when there is none. *)
Record request : Type := Request { method : string; req_body : option body }.

(** What a handler answers. *)
Inductive answer : Type :=
| NoContent                            (* res.status(200).end() *)
| Refused (status : nat) (error : string) (detail : option (string * text))
                                       (* res.status(status).json({error, details | raw}) *)
| Crashed                              (* the outer catch: status 500, 'Server error: ...' *)
| Routed (r : response).               (* the answers from the validation of the waypoints on *)

(** The messages in which the three files differ. *)
Record messages : Type := Messages {
  no_key : string;
  api_error : nat -> string;
  no_text : string;
  parse_failed : string
}.

(** [!image] *)
Definition missing (image : option string) : bool :=
  match image with
  | Some s => String.eqb s ""
  | None => true
  end.

Section Serve.

(** [String.prototype.trim]; [JSON.parse], [None] when it throws, its value
    being taken for an object of the expected shape; the messages of the
    file; and the rest of the handler. *)
Context {P : Type} (trim : text -> text) (parse : text -> option P)
  (msg : messages) (rest : P -> response).

(** The handler up to the parsed oracle answer. *)
Definition serve (apiKey : bool) (req : request) (o : oracle) : answer :=
  if String.eqb (method req) "OPTIONS" then NoContent
  else if negb (String.eqb (method req) "POST") then
    Refused 405 "Method not allowed" None
  else if negb apiKey then Refused 500 (no_key msg) None
  else
    match req_body req with
    | None => Crashed
    | Some b =>
        if missing (image b) then Refused 400 "No image provided" None
        else
          match o with
          | OracleThrown => Crashed
          | OracleNotOk status errText =>
              Refused status (api_error msg status)
                (Some ("details"%string, take 300 errText))
          | OracleOk content =>
              match find (fun c => String.eqb (type c) "text") content with
              | None => Refused 500 (no_text msg) None
              | Some textContent =>
                  match parse (unfence (trim (content_text textContent))) with
                  | None =>
                      Refused 500 (parse_failed msg)
                        (Some ("raw"%string, take 500 (content_text textContent)))
                  | Some parsed => Routed (rest parsed)
                  end
              end
          end
    end.

End Serve.

(** The decimal digits of a status code. *)
Definition decimal (n : nat) : string := NilEmpty.string_of_uint (Nat.to_uint n).

(** part_001, lines 10-214. *)
Definition messages_001 : messages :=
  Messages "API key not configured" (fun _ => "AI API error"%string)
    "No response from AI" "Failed to parse AI response".

Definition part_001 (trim : text -> text) (parse : text -> option Part001.routeInfo)
    (apiKey : bool) (req : request) (o : oracle) (engine : Part001.osrm) : answer :=
  serve trim parse messages_001 (fun routeInfo => Part001.handler routeInfo engine)
    apiKey req o.

(** part_000 and api/extract.js, which share their messages. *)
Definition messages_000 : messages :=
  Messages "API key not configured. Add ANTHROPIC_API_KEY in Vercel Environment Variables."
    (fun status => ("AI API error (status " ++ decimal status ++ ")")%string)
    "No text response from AI" "Failed to parse route data from AI response".

Definition part_000 (trim : text -> text) (parse : text -> option RouteData.t)
    (apiKey : bool) (req : request) (o : oracle) : answer :=
  serve trim parse messages_000 Part000.handler apiKey req o.

Definition extract (trim : text -> text) (parse : text -> option RouteData.t)
    (apiKey : bool) (req : request) (o : oracle) : answer :=
  serve trim parse messages_000 Extract.handler apiKey req o.

(** A request that passes the checks, and an oracle answer of one text. *)
Definition upload : request :=
  Request "POST" (Some (Body (Some "aGVsbG8="%string) None)).
Definition saying (t : text) : oracle := OracleOk [Block "text" t].

(** A fenced and a bare oracle answer. *)
Definition payload : text := units "{}".
Definition fenced : text := fence ++ json ++ newline ++ payload ++ newline ++ fence.

End Front.

(** * Properties *)

(** ** Operators *)

Lemma sqrt_Num (x : R) : 0 <= x -> sqrt (Num x) = Num (R_sqrt.sqrt x).
Proof.
  intros Hx. unfold sqrt. destruct (Rle_dec 0 x); [done | contradiction].
Qed.

Lemma truthy_Num (x : R) : truthy (Num x) = true <-> x <> 0.
Proof.
  unfold truthy. destruct (Req_dec_T x 0); split; intros; try done.
Qed.

Lemma or_truthy (a b : value) : truthy a = true -> or a b = a.
Proof. unfold or. by intros ->. Qed.

Lemma or_Num_default (a : value) (d : R) :
  d <> 0 -> exists r, or a (Num d) = Num r /\ r <> 0.
Proof.
  intros Hd. unfold or. destruct (truthy a) eqn:Ha.
  - destruct a as [| |r]; try discriminate. exists r. split; [done|].
    by apply truthy_Num.
  - by exists d.
Qed.

(** ** The smoothing loop *)

Section Smoothing.
Import Part001.

Lemma loop_smooth (rest : list point) :
  forall (done_ : list point) (q c : point) (i : nat),
    i = Datatypes.S (length done_) ->
    loop smooth_at i (length rest) (done_ ++ q :: c :: rest)
    = done_ ++ q :: smoothed_from (at2 q) (c :: rest).
Proof.
  induction rest as [|n rest IH]; intros done_ q c i ->; [done|].
  cbn [length loop].
  assert (Hstep :
            smooth_at (Datatypes.S (length done_)) (done_ ++ q :: c :: n :: rest)
            = (done_ ++ [q])
                ++ Pt (at0 c) (at1 c) (mean3 (at2 q) (at2 c) (at2 n)) :: n :: rest).
  { unfold smooth_at.
    replace (Datatypes.S (length done_) - 1)%nat with (length done_ + 0)%nat by lia.
    rewrite lookup_app_r by lia.
    replace (length done_ + 0 - length done_)%nat with 0%nat by lia.
    replace (Datatypes.S (length done_)) with (length done_ + 1)%nat by lia.
    rewrite (lookup_app_r done_ _ (length done_ + 1)) by lia.
    replace (length done_ + 1 - length done_)%nat with 1%nat by lia.
    rewrite (lookup_app_r done_ _ (length done_ + 1 + 1)) by lia.
    replace (length done_ + 1 + 1 - length done_)%nat with 2%nat by lia.
    cbn [lookup list_lookup].
    rewrite insert_app_r. cbn. by rewrite <- app_assoc. }
  rewrite Hstep.
  rewrite (IH (done_ ++ [q]) _ n (Datatypes.S (Datatypes.S (length done_)))).
  - by rewrite <- app_assoc.
  - rewrite length_app. cbn. lia.
Qed.

(** The in-place loop computes the left to right recurrence. *)
Lemma smooth_smoothed (g : list point) : smooth g = smoothed g.
Proof.
  unfold smooth. destruct g as [|q [|c rest]]; [done | done |].
  cbn [length]. replace (Datatypes.S (Datatypes.S (length rest)) - 2)%nat
    with (length rest) by lia.
  apply (loop_smooth rest [] q c 1). done.
Qed.

End Smoothing.

Section SmoothingFacts.
Import Part001.

Lemma smoothed_from_cons (prev : value) (c n : point) (rest : list point) :
  smoothed_from prev (c :: n :: rest)
  = Pt (at0 c) (at1 c) (mean3 prev (at2 c) (at2 n))
      :: smoothed_from (mean3 prev (at2 c) (at2 n)) (n :: rest).
Proof. done. Qed.

Lemma smoothed_from_length (l : list point) :
  forall prev, length (smoothed_from prev l) = length l.
Proof.
  induction l as [|c [|n rest] IH]; intros prev; [done | done |].
  rewrite smoothed_from_cons. cbn [length]. by rewrite IH.
Qed.

Lemma smooth_length (g : list point) : length (smooth g) = length g.
Proof.
  rewrite smooth_smoothed. destruct g as [|p rest]; [done|].
  cbn. by rewrite smoothed_from_length.
Qed.

(** The recurrence, index by index: position [j] of [smoothed_from prev l]
    averages the value written at [j - 1] ([prev] when [j = 0]) with the
    original values at [j] and [j + 1]. *)
Lemma smoothed_from_lookup (l : list point) :
  forall (prev : value) (j : nat) (c n : point),
    l !! j = Some c -> l !! (j + 1)%nat = Some n ->
    smoothed_from prev l !! j
    = Some (Pt (at0 c) (at1 c)
              (mean3 (match j with
                      | O => prev
                      | Datatypes.S k =>
                          match smoothed_from prev l !! k with
                          | Some q => at2 q
                          | None => prev
                          end
                      end) (at2 c) (at2 n))).
Proof.
  induction l as [|c0 [|n0 rest] IH]; intros prev j c n Hc Hn.
  - done.
  - destruct j as [|[|j]]; done.
  - destruct j as [|j].
    + cbn in Hc, Hn. by simplify_eq.
    + rewrite smoothed_from_cons.
      change ((c0 :: n0 :: rest) !! Datatypes.S j) with ((n0 :: rest) !! j) in Hc.
      change ((c0 :: n0 :: rest) !! (Datatypes.S j + 1)%nat)
        with ((n0 :: rest) !! (j + 1)%nat) in Hn.
      set (e := mean3 prev (at2 c0) (at2 n0)).
      change ((?x :: smoothed_from e (n0 :: rest)) !! Datatypes.S j)
        with (smoothed_from e (n0 :: rest) !! j).
      rewrite (IH e j c n Hc Hn).
      destruct j as [|j]; [done|].
      change ((?x :: smoothed_from e (n0 :: rest)) !! Datatypes.S j)
        with (smoothed_from e (n0 :: rest) !! j).
      destruct (smoothed_from e (n0 :: rest) !! j) as [q|] eqn:Hq; [done|].
      apply lookup_ge_None in Hq. rewrite smoothed_from_length in Hq.
      apply lookup_lt_Some in Hc. lia.
Qed.

Lemma smooth_head (g : list point) : smooth g !! 0%nat = g !! 0%nat.
Proof. rewrite smooth_smoothed. by destruct g. Qed.


End SmoothingFacts.

(** ** Evaluating the handlers on sample inputs *)

(** Settles the comparisons of concrete distances and the zero tests of
    concrete numbers that block the evaluation of a handler. *)
Ltac decide_reals :=
  repeat match goal with
  | |- context [Rlt_dec (R_sqrt.sqrt ?a) (R_sqrt.sqrt ?b)] =>
      let H := fresh "H" in
      destruct (Rlt_dec (R_sqrt.sqrt a) (R_sqrt.sqrt b)) as [H|H];
      [ try (exfalso; apply sqrt_lt_0_alt in H; lra)
      | try (exfalso; apply H; apply sqrt_lt_1_alt; lra) ]
  | |- context [Req_dec_T ?a ?b] =>
      let H := fresh "H" in
      destruct (Req_dec_T a b) as [H|H];
      [ try (exfalso; lra) | try (exfalso; apply H; lra) ]
  end.

Lemma distance_Num (la lo x y : R) (l : option string) (e : value) :
  Part001.distance (Num la) (Num lo) (Part001.Waypoint (Num x) (Num y) l e)
  = Num (R_sqrt.sqrt ((la - x) * (la - x) + (lo - y) * (lo - y))).
Proof.
  unfold Part001.distance, sqr. cbn [Part001.lat Part001.lng sub mul add].
  rewrite sqrt_Num; [done|].
  pose proof (Rle_0_sqr (la - x)). pose proof (Rle_0_sqr (lo - y)).
  unfold Rsqr in *. lra.
Qed.

(** Runs the nearest neighbour scan of sample waypoints at sample
    coordinates. *)
Ltac scan_eval :=
  unfold Part001.locate, Part001.nearestElev,
    Sample.south, Sample.north, Sample.at_south, Sample.at_north;
  cbn [map Part001.c0 Part001.c1 fold_left];
  unfold Part001.scan; rewrite !distance_Num;
  cbn [Part001.below fst snd lt];
  unfold Part001.elevation, or, truthy; cbn [Part001.elevation_ft];
  decide_reals; cbn [fst snd].

Section Evaluation.
Import Part001 Sample.

Lemma hills_assigned :
  map (locate hills) there_and_back = assigned.
Proof. unfold hills, there_and_back. scan_eval. done. Qed.

(** C1, as stated, fails on the code: along [there_and_back] the smoothed
    elevation at index 2 is not the mean of the three elevations assigned
    before smoothing at indices 1, 2 and 3, because the loop has already
    overwritten index 1. *)
Lemma smoothing_is_not_a_snapshot :
  exists p c n s : point,
    map (locate hills) there_and_back !! 1%nat = Some p
    /\ map (locate hills) there_and_back !! 2%nat = Some c
    /\ map (locate hills) there_and_back !! 3%nat = Some n
    /\ estimate hills there_and_back !! 2%nat = Some s
    /\ at2 s <> mean3 (at2 p) (at2 c) (at2 n).
Proof.
  unfold estimate. rewrite hills_assigned.
  do 4 eexists. repeat split; try reflexivity.
  cbn. intros H. injection H as H. lra.
Qed.

End Evaluation.

(** ** C1: smoothing *)

Section C1.
Import Part001.

(** C1 (amended): the smoothing loop updates the array in place, from left
    to right.  At every interior index [i] the new elevation is the mean of
    the elevation already written at [i - 1] and of the elevations found
    before the pass at [i] and [i + 1]; latitude and longitude are kept.
    At [i = 1] the value read at index 0 is the one from before the pass,
    so the middle of a three point polyline [A, B, C] gets (A + B + C) / 3. *)
Theorem smooth_in_place (g : list point) (i : nat) (q c n : point) :
  (1 <= i)%nat ->
  smooth g !! (i - 1)%nat = Some q ->
  g !! i = Some c ->
  g !! (i + 1)%nat = Some n ->
  smooth g !! i = Some (Pt (at0 c) (at1 c) (mean3 (at2 q) (at2 c) (at2 n)))
  /\ (i = 1%nat -> g !! 0%nat = Some q).
Proof.
  intros Hi Hq Hc Hn. split.
  - rewrite smooth_smoothed in *. destruct g as [|p rest]; [done|].
    destruct i as [|j]; [lia|].
    replace (Datatypes.S j - 1)%nat with j in Hq by lia.
    change (smoothed_from (at2 p) rest !! j
            = Some (Pt (at0 c) (at1 c) (mean3 (at2 q) (at2 c) (at2 n)))).
    change (rest !! j = Some c) in Hc.
    change (rest !! (j + 1)%nat = Some n) in Hn.
    rewrite (smoothed_from_lookup rest (at2 p) j c n Hc Hn).
    destruct j as [|k].
    + cbn in Hq. by simplify_eq.
    + change (smoothed_from (at2 p) rest !! k = Some q) in Hq. by rewrite Hq.
  - intros ->. by rewrite <- smooth_head.
Qed.

Lemma smooth_in_place_witness :
  (1 <= 2)%nat
  /\ smooth Sample.assigned !! (2 - 1)%nat
     = Some (Pt (Num 0) (Num 0) (mean3 (Num 3) (Num 3) (Num 9)))
  /\ Sample.assigned !! 2%nat = Some (Pt (Num 10) (Num 0) (Num 9))
  /\ Sample.assigned !! (2 + 1)%nat = Some (Pt (Num 0) (Num 0) (Num 3))
  /\ (smooth Sample.assigned !! 2%nat
      = Some (Pt (Num 10) (Num 0) (mean3 (mean3 (Num 3) (Num 3) (Num 9)) (Num 9) (Num 3)))
      /\ (2%nat = 1%nat -> Sample.assigned !! 0%nat
                            = Some (Pt (Num 0) (Num 0) (mean3 (Num 3) (Num 3) (Num 9))))).
Proof.
  split; [lia|]. split; [reflexivity|]. split; [reflexivity|]. split; [reflexivity|].
  apply (smooth_in_place Sample.assigned 2
           (Pt (Num 0) (Num 0) (mean3 (Num 3) (Num 3) (Num 9)))
           (Pt (Num 10) (Num 0) (Num 9)) (Pt (Num 0) (Num 0) (Num 3)));
    [lia | reflexivity | reflexivity | reflexivity].
Defined.

End C1.

(** ** C10: the elevation stages keep the positions *)

Section C10.
Import Part001.

Lemma smoothed_from_position (l : list point) :
  forall prev, map position (smoothed_from prev l) = map position l.
Proof.
  induction l as [|c [|n rest] IH]; intros prev; [done | done |].
  rewrite smoothed_from_cons. cbn [map]. by rewrite IH.
Qed.

Lemma smooth_position (g : list point) : map position (smooth g) = map position g.
Proof.
  rewrite smooth_smoothed. destruct g as [|p rest]; [done|].
  cbn [smoothed map]. by rewrite smoothed_from_position.
Qed.

Lemma locate_position (waypoints : list waypoint) (osrmCoords : list coord) :
  map position (map (locate waypoints) osrmCoords) = map swapped osrmCoords.
Proof. rewrite map_map. by apply map_ext. Qed.

Lemma estimate_length (waypoints : list waypoint) (osrmCoords : list coord) :
  length (estimate waypoints osrmCoords) = length osrmCoords.
Proof. unfold estimate. by rewrite smooth_length, length_map. Qed.

(** C10: when the engine answers Ok with a first route of at least ten
    coordinates, the response carries the estimated geometry, whose points
    are, in order, the engine's coordinates with their axes swapped; the
    assignment maps each coordinate to one point at that position, and the
    smoothing keeps every position and the number of points. *)
Theorem snapped_positions (info : routeInfo) (waypoints : list waypoint)
    (r : route) (others : list route) (osrmCoords : list coord) :
  key_waypoints info = Some waypoints ->
  (2 <= length waypoints)%nat ->
  coordinates r = Some osrmCoords ->
  (10 <= length osrmCoords)%nat ->
  handler info (OsrmData "Ok" (Some (r :: others)))
  = Success (assemble info (estimate waypoints osrmCoords))
  /\ map position (estimate waypoints osrmCoords) = map swapped osrmCoords
  /\ map position (map (locate waypoints) osrmCoords) = map swapped osrmCoords
  /\ (forall g : list point,
        map position (smooth g) = map position g /\ length (smooth g) = length g).
Proof.
  intros Hk Hw Hc Hlen. repeat split.
  - unfold handler. rewrite Hk.
    destruct (Nat.ltb_spec (length waypoints) 2) as [?|_]; [lia|].
    cbn [snap String.eqb Ascii.eqb Bool.eqb]. rewrite Hc. unfold usable.
    rewrite estimate_length.
    destruct (Nat.ltb_spec (length osrmCoords) 10) as [?|_]; [lia|done].
  - unfold estimate. by rewrite smooth_position, locate_position.
  - apply locate_position.
  - apply smooth_position.
  - apply smooth_length.
Qed.

Lemma snapped_positions_witness :
  key_waypoints (Sample.bare Sample.hills) = Some Sample.hills
  /\ (2 <= length Sample.hills)%nat
  /\ coordinates (Route (Some Sample.ten)) = Some Sample.ten
  /\ (10 <= length Sample.ten)%nat
  /\ (handler (Sample.bare Sample.hills) (OsrmData "Ok" (Some [Route (Some Sample.ten)]))
      = Success (assemble (Sample.bare Sample.hills) (estimate Sample.hills Sample.ten))
      /\ map position (estimate Sample.hills Sample.ten) = map swapped Sample.ten
      /\ map position (map (locate Sample.hills) Sample.ten) = map swapped Sample.ten
      /\ (forall g : list point,
            map position (smooth g) = map position g /\ length (smooth g) = length g)).
Proof.
  split; [reflexivity|]. split; [simpl; lia|]. split; [reflexivity|].
  split; [simpl; lia|].
  apply (snapped_positions (Sample.bare Sample.hills) Sample.hills
           (Route (Some Sample.ten)) [] Sample.ten);
    [reflexivity | simpl; lia | reflexivity | simpl; lia].
Defined.

End C10.

(** ** The nearest neighbour scan *)

Section NearestNeighbour.
Import Part001.




End NearestNeighbour.

(** ** C9: which elevation the scan assigns *)

Section C9.
Import Part001.


(** C9 on a waypoint at sea level: the point at the southern waypoint of
    [coast] is at distance zero from it, and that waypoint's elevation is 0,
    yet the scan assigns 5300. *)
Lemma sea_level_is_replaced :
  distance (Num 0) (Num 0) (Sample.south (Num 0)) = Num 0
  /\ elevation_ft (Sample.south (Num 0)) = Num 0
  /\ locate Sample.coast Sample.at_south = Pt (Num 0) (Num 0) (Num 5300).
Proof.
  split; [|split; [done|]].
  - unfold Sample.south. rewrite distance_Num. f_equal.
    replace ((0 - 0) * (0 - 0) + (0 - 0) * (0 - 0)) with 0 by lra. apply sqrt_0.
  - unfold Sample.coast. scan_eval. done.
Qed.

End C9.

(** ** C4: the range of the estimated elevations *)

Section C4.
Import Part001.









End C4.

(** ** The fallback interpolation *)

Section Fallback.
Import Part001.

Lemma Rmax_IZR (a b : Z) : Rmax (IZR a) (IZR b) = IZR (Z.max a b).
Proof.
  destruct (Z.le_ge_cases a b) as [H|H].
  - rewrite Z.max_r by done. apply Rmax_right. by apply IZR_le.
  - rewrite Z.max_l by done. apply Rmax_left. by apply IZR_le.
Qed.

Lemma Zceil_IZR (k : Z) : Zceil (IZR k) = k.
Proof. unfold Zceil. rewrite ZfloorNZ. lia. Qed.

Lemma dist_located (a b : waypoint) :
  located a = true -> located b = true ->
  dist a b = Num (planar a b) /\ 0 <= planar a b.
Proof.
  destruct a as [[| |x] [| |y] la ea]; try discriminate.
  destruct b as [[| |x'] [| |y'] lb eb]; try discriminate. intros _ _.
  unfold dist, planar, sqr. cbn [lat lng sub mul add]. split.
  - apply sqrt_Num.
    pose proof (Rle_0_sqr (x' - x)). pose proof (Rle_0_sqr (y' - y)).
    unfold Rsqr in *. lra.
  - apply sqrt_pos.
Qed.

(** The step count of a segment between located waypoints. *)
Lemma steps_located (a b : waypoint) :
  located a = true -> located b = true ->
  steps a b = Num (IZR (Z.max 5 (Zfloor (planar a b / 0.002 + / 2))))
  /\ iterations (steps a b) = Z.to_nat (Z.max 5 (Zfloor (planar a b / 0.002 + / 2))).
Proof.
  intros Ha Hb. destruct (dist_located a b Ha Hb) as [Hd _].
  assert (Hs : steps a b = Num (IZR (Z.max 5 (Zfloor (planar a b / 0.002 + / 2))))).
  { unfold steps. rewrite Hd. cbn [div round max]. by rewrite Rmax_IZR. }
  split; [done|]. rewrite Hs. cbn [iterations]. by rewrite Zceil_IZR.
Qed.

Lemma segment_length (a b : waypoint) :
  length (segment a b) = iterations (steps a b).
Proof. unfold segment. by rewrite length_map, length_seq. Qed.

Lemma elevation_Num (wp : waypoint) : exists r : R, elevation wp = Num r.
Proof.
  destruct (or_Num_default (elevation_ft wp) 5300) as (r & Hr & _); [lra|].
  by exists r.
Qed.

(** A segment between located waypoints starts on its first waypoint. *)
Lemma segment_head (a b : waypoint) :
  located a = true -> located b = true ->
  exists rest : list point, segment a b = final a :: rest.
Proof.
  intros Ha Hb. destruct (steps_located a b Ha Hb) as [Hs Hn].
  unfold segment. rewrite Hn, Hs.
  destruct (Z.to_nat (Z.max 5 (Zfloor (planar a b / 0.002 + / 2)))) as [|m] eqn:E; [lia|].
  cbn [seq map]. eexists. f_equal. unfold final.
  destruct (elevation_Num a) as [ea ->]. destruct (elevation_Num b) as [eb ->].
  destruct a as [[| |x] [| |y] la ea']; try discriminate.
  destruct b as [[| |x'] [| |y'] lb eb']; try discriminate.
  cbn [lat lng lerp of_nat div sub mul add INR].
  f_equal; f_equal; unfold Rdiv; rewrite Rmult_0_l; lra.
Qed.

Lemma segment_at_least_five (a b : waypoint) :
  located a = true -> located b = true -> (5 <= length (segment a b))%nat.
Proof.
  intros Ha Hb. destruct (steps_located a b Ha Hb) as [_ Hn].
  rewrite segment_length, Hn. lia.
Qed.

Lemma fallback_Some (waypoints : list waypoint) :
  waypoints <> [] -> exists wp, last waypoints = Some wp
                       /\ fallback waypoints = Some (segments waypoints ++ [final wp]).
Proof.
  intros Hne. unfold fallback.
  destruct (last waypoints) as [wp|] eqn:E.
  - by exists wp.
  - apply last_None in E. done.
Qed.

End Fallback.

(** ** C8: the number of points of a fallback segment *)

Section C8.
Import Part001.




End C8.

(** ** C5: the end points of the fallback polyline *)

Section C5.
Import Part001.

Lemma segments_cons (a b : waypoint) (rest : list waypoint) :
  segments (a :: b :: rest) = segment a b ++ segments (b :: rest).
Proof. done. Qed.

Lemma segments_length (l : list waypoint) :
  Forall (fun wp => located wp = true) l ->
  (5 * (length l - 1) <= length (segments l))%nat.
Proof.
  induction l as [|a [|b rest] IH]; intros Hall; [cbn; lia | cbn; lia |].
  rewrite segments_cons, length_app.
  pose proof (Forall_inv Hall) as Ha. pose proof (Forall_inv_tail Hall) as Hrest.
  pose proof (Forall_inv Hrest) as Hb.
  pose proof (segment_at_least_five a b Ha Hb) as H5.
  specialize (IH Hrest). cbn [length] in *. lia.
Qed.

(** What the fallback returns on a located list of two or more waypoints. *)
Lemma fallback_shape (a b : waypoint) (rest : list waypoint) :
  Forall (fun wp => located wp = true) (a :: b :: rest) ->
  exists (z : waypoint) (inner : list point),
    last (a :: b :: rest) = Some z
    /\ fallback (a :: b :: rest) = Some (segments (a :: b :: rest) ++ [final z])
    /\ segments (a :: b :: rest) = final a :: inner.
Proof.
  intros Hall.
  destruct (fallback_Some (a :: b :: rest)) as (z & Hz & Hf); [done|].
  pose proof (Forall_inv Hall) as Ha.
  pose proof (Forall_inv (Forall_inv_tail Hall)) as Hb.
  destruct (segment_head a b Ha Hb) as [tl Htl].
  exists z, (tl ++ segments (b :: rest)).
  split; [done|]. split; [done|]. by rewrite segments_cons, Htl.
Qed.





End C5.

(** ** C6: routing failures degrade to the fallback *)

Section C6.
Import Part001.



(** With two or more waypoints the handler answers 200 whatever the engine
    does; without a usable snapped geometry the answer carries the fallback
    polyline. *)
Lemma handler_fallback (info : routeInfo) (waypoints : list waypoint) (o : osrm) :
  key_waypoints info = Some waypoints ->
  (2 <= length waypoints)%nat ->
  usable (snap waypoints o) = None ->
  exists g : list point,
    fallback waypoints = Some g /\ handler info o = Success (assemble info g).
Proof.
  intros Hk Hlen Hu.
  destruct (fallback_Some waypoints) as (z & _ & Hf).
  { intros ->. cbn in Hlen. lia. }
  eexists. split; [exact Hf|].
  unfold handler. rewrite Hk.
  destruct (Nat.ltb_spec (length waypoints) 2); [lia|]. by rewrite Hu, Hf.
Qed.



(** The scenario of the specification: three waypoints near Boulder, the
    routing engine unavailable. *)
Lemma boulder_fallback :
  exists g : list point,
    handler (Sample.bare Sample.boulder) Thrown
    = Success (assemble (Sample.bare Sample.boulder) g)
    /\ g !! 0%nat = Some (Pt (Num 40) (Num (-105)) (Num 5000))
    /\ last g = Some (Pt (Num 40.02) (Num (-105.01)) (Num 5300))
    /\ (3 < length g)%nat.
Proof.
  assert (Hall : Forall (fun wp => located wp = true) Sample.boulder)
    by (repeat constructor).
  destruct (fallback_shape _ _ _ Hall) as (z & inner & Hz & Hf & Hs).
  change (fallback Sample.boulder = Some (segments Sample.boulder ++ [final z])) in Hf.
  cbn in Hz. simplify_eq.
  exists (segments Sample.boulder
            ++ [final (Waypoint (Num 40.02) (Num (-105.01)) None (Num 5300))]).
  assert (He : forall e : R, e <> 0 -> or (Num e) (Num 5300) = Num e).
  { intros e He. apply or_truthy. by apply truthy_Num. }
  split; [|split; [|split]].
  - destruct (handler_fallback (Sample.bare Sample.boulder) Sample.boulder Thrown)
      as (g & Hg & Hh); [done | simpl; lia | done |].
    rewrite Hf in Hg. by simplify_eq.
  - unfold Sample.boulder. rewrite Hs. cbn. unfold final, elevation.
    cbn [lat lng elevation_ft]. rewrite He by lra. done.
  - rewrite last_snoc. unfold final, elevation. cbn [lat lng elevation_ft].
    rewrite He by lra. done.
  - rewrite length_app. pose proof (segments_length _ Hall) as H5.
    cbn [length Sample.boulder] in *. lia.
Qed.

End C6.

(** ** The resampling of part_000 *)

Section Resampling.

Lemma segment_points_length (steps : value) (a b : point) :
  length (segment steps a b) = iterations steps.
Proof. unfold segment. by rewrite length_map, length_seq. Qed.

Lemma segments_points_length (steps : value) (l : list point) :
  length (segments steps l) = ((length l - 1) * iterations steps)%nat.
Proof.
  induction l as [|a [|b rest] IH]; [done | done |].
  change (segments steps (a :: b :: rest))
    with (segment steps a b ++ segments steps (b :: rest)).
  rewrite length_app, segment_points_length, IH. cbn [length]. lia.
Qed.

Lemma interpolate_length (threshold : nat) (steps : nat -> value)
    (l l' : list point) :
  interpolate threshold steps l = Some l' ->
  length l' = if (length l <? threshold)%nat
              then ((length l - 1) * iterations (steps (length l)) + 1)%nat
              else length l.
Proof.
  unfold interpolate. destruct (length l <? threshold)%nat.
  - destruct (last l) as [w|]; [|done]. intros [= <-].
    rewrite length_app, segments_points_length. cbn. lia.
  - by intros [= <-].
Qed.

Lemma interpolate_Some (threshold : nat) (steps : nat -> value) (l : list point) :
  l <> [] -> exists l', interpolate threshold steps l = Some l'.
Proof.
  intros Hne. unfold interpolate. destruct (length l <? threshold)%nat; [|by eexists].
  destruct (last l) as [w|] eqn:E; [by eexists|]. by apply last_None in E.
Qed.

(** [Math.max(150, n * 3)] on an array length. *)
Lemma targetPoints_nat (n : nat) :
  Part000.targetPoints n = of_nat (Nat.max 150 (n * 3)).
Proof.
  unfold Part000.targetPoints, of_nat. cbn [mul max]. f_equal.
  assert (H3 : INR n * 3 = INR (n * 3)) by (rewrite mult_INR; simpl; lra).
  assert (H150 : 150 = INR 150) by (rewrite INR_IZR_INZ; done).
  rewrite H3, H150.
  destruct (Nat.le_ge_cases 150 (n * 3)) as [H|H].
  - rewrite Nat.max_r by done. apply Rmax_right. by apply le_INR.
  - rewrite Nat.max_l by done. apply Rmax_left. by apply le_INR.
Qed.

(** [Math.ceil(t / n)] on two array lengths is the integer ceiling. *)
Lemma ceil_div_nat (t n : nat) :
  (0 < n)%nat ->
  ceil (div (of_nat t) (of_nat n)) = of_nat ((t + n - 1) / n).
Proof.
  intros Hn. unfold of_nat. cbn [div ceil]. f_equal.
  set (q := ((t + n - 1) / n)%nat).
  assert (Hq1 : (t <= q * n)%nat).
  { pose proof (Nat.div_mod_eq (t + n - 1) n) as E.
    pose proof (Nat.mod_upper_bound (t + n - 1) n ltac:(lia)). fold q in E. nia. }
  assert (Hq2 : (q * n < t + n)%nat).
  { pose proof (Nat.div_mod_eq (t + n - 1) n) as E. fold q in E. nia. }
  rewrite (Zceil_eq (Z.of_nat q)); [by rewrite INR_IZR_INZ|].
  rewrite <- INR_IZR_INZ.
  assert (Hn' : 0 < INR n) by (by apply lt_0_INR).
  apply le_INR in Hq1. apply lt_INR in Hq2.
  rewrite mult_INR in Hq1. rewrite mult_INR, plus_INR in Hq2.
  set (x := INR t / INR n).
  assert (Hx : x * INR n = INR t) by (unfold x; field; lra).
  split; nra.
Qed.

Lemma stepsPerSeg_nat (n : nat) :
  (0 < n)%nat ->
  iterations (Part000.stepsPerSeg n) = ((Nat.max 150 (n * 3) + n - 1) / n)%nat.
Proof.
  intros Hn. unfold Part000.stepsPerSeg. rewrite targetPoints_nat, ceil_div_nat by done.
  unfold of_nat. cbn [iterations]. rewrite INR_IZR_INZ, Zceil_IZR. lia.
Qed.

(** The length of the resampled list. *)
Lemma interpolated_length (l l' : list point) :
  l <> [] ->
  Part000.interpolated l = Some l' ->
  length l' = if (length l <? 100)%nat
              then ((length l - 1)
                    * ((Nat.max 150 (length l * 3) + length l - 1) / length l) + 1)%nat
              else length l.
Proof.
  intros Hne H. apply interpolate_length in H. rewrite H.
  rewrite stepsPerSeg_nat; [done|]. destruct l; [done | cbn; lia].
Qed.

(** At or above the threshold the list is returned unchanged. *)
Lemma interpolated_unchanged (l : list point) :
  (100 <= length l)%nat -> Part000.interpolated l = Some l.
Proof.
  intros H. unfold Part000.interpolated, interpolate.
  by destruct (Nat.ltb_spec (length l) 100); [lia|].
Qed.

(** X12: in part_000 the resampled list never has fewer points than the
    list it was made from. *)
Lemma interpolated_grows (l l' : list point) :
  l <> [] -> Part000.interpolated l = Some l' -> (length l <= length l')%nat.
Proof.
  intros Hne H. rewrite (interpolated_length l l' Hne H).
  destruct (Nat.ltb_spec (length l) 100) as [Hlt|_]; [|done].
  assert (Hn : (0 < length l)%nat) by (destruct l; [done | cbn; lia]).
  set (n := length l) in *. set (q := ((Nat.max 150 (n * 3) + n - 1) / n)%nat).
  assert (1 <= q)%nat; [|nia].
  apply Nat.div_le_lower_bound; lia.
Qed.

(** X13: in part_000 a list of three or more points comes out with at
    least 100 points, and resampling the result again returns it
    unchanged. *)
Lemma interpolated_idempotent_from_three (l l' : list point) :
  (3 <= length l)%nat ->
  Part000.interpolated l = Some l' ->
  (100 <= length l')%nat /\ Part000.interpolated l' = Some l'.
Proof.
  intros H3 H.
  assert (Hne : l <> []) by (intros ->; cbn in H3; lia).
  assert (Hlen : (100 <= length l')%nat).
  { rewrite (interpolated_length l l' Hne H).
    destruct (Nat.ltb_spec (length l) 100) as [Hlt|?]; [|done].
    set (n := length l) in *. set (q := ((Nat.max 150 (n * 3) + n - 1) / n)%nat).
    assert (Hq : (150 <= q * n)%nat).
    { pose proof (Nat.div_mod_eq (Nat.max 150 (n * 3) + n - 1) n) as E.
      pose proof (Nat.mod_upper_bound (Nat.max 150 (n * 3) + n - 1) n ltac:(lia)).
      fold q in E. nia. }
    destruct (Nat.le_gt_cases 50 q); nia. }
  split; [done | by apply interpolated_unchanged].
Qed.

End Resampling.

(** ** C3: resampling twice *)

Section C3.

(** C3 on a two point list: the resampled list has 76 points, fewer than
    the 100 the block is meant to ensure, so a second resampling does not
    return it unchanged but a list of 226 points. *)
Theorem two_points_stay_short (a b : point) :
  exists l1 l2 : list point,
    Part000.interpolated [a; b] = Some l1
    /\ length l1 = 76%nat
    /\ Part000.interpolated l1 = Some l2
    /\ length l2 = 226%nat
    /\ l2 <> l1.
Proof.
  destruct (interpolate_Some 100 Part000.stepsPerSeg [a; b]) as [l1 H1]; [done|].
  fold Part000.interpolated in H1.
  assert (Hl1 : length l1 = 76%nat).
  { rewrite (interpolated_length [a; b] l1); [|done|done]. done. }
  assert (Hne : l1 <> []) by (intros ->; done).
  destruct (interpolate_Some 100 Part000.stepsPerSeg l1 Hne) as [l2 H2].
  fold Part000.interpolated in H2.
  assert (Hl2 : length l2 = 226%nat).
  { rewrite (interpolated_length l1 l2 Hne H2), Hl1. done. }
  exists l1, l2. repeat split; try done.
  intros ->. lia.
Qed.

End C3.

(** ** C2: what the validation checks *)

Section C2.
Import Part001.


Lemma respond_enough (interp : list point -> option (list point))
    (routeData : RouteData.t) (l g : list point) :
  RouteData.waypoints routeData = Some l ->
  (2 <= length l)%nat ->
  interp l = Some g ->
  respond interp routeData = Success (body_of routeData g).
Proof.
  intros Hw Hl Hg. unfold respond. rewrite Hw.
  destruct (Nat.ltb_spec (length l) 2); [lia|]. by rewrite Hg.
Qed.






End C2.

(** ** C7: the metadata of the response *)

Section C7.
Import Part001.

Lemma or_string_kept (s d : string) : s <> ""%string -> or_string (Some s) d = s.
Proof.
  intros Hs. unfold or_string. apply String.eqb_neq in Hs. by rewrite Hs.
Qed.

(** Metadata that is present and truthy is sent unchanged, and missing
    metadata is replaced by its placeholder. *)
Lemma assemble_metadata (info : routeInfo) (g : list point) :
  (forall s, route_name info = Some s -> s <> ""%string ->
             Body.route_name (assemble info g) = s)
  /\ (route_name info = None -> Body.route_name (assemble info g) = "Extracted Route"%string)
  /\ (forall s, location info = Some s -> s <> ""%string ->
                Body.location (assemble info g) = s)
  /\ (location info = None -> Body.location (assemble info g) = "Unknown"%string)
  /\ (truthy (confidence info) = true -> Body.confidence (assemble info g) = confidence info)
  /\ (confidence info = Undefined -> Body.confidence (assemble info g) = Num (1 / 2))
  /\ (forall s, notes info = Some s -> Body.notes (assemble info g) = s)
  /\ (notes info = None -> Body.notes (assemble info g) = ""%string).
Proof.
  cbn [assemble Body.route_name Body.location Body.confidence Body.notes].
  repeat split.
  - intros s -> Hs. by apply or_string_kept.
  - by intros ->.
  - intros s -> Hs. by apply or_string_kept.
  - by intros ->.
  - intros Ht. by apply or_truthy.
  - by intros ->.
  - intros s ->. unfold or_string. by destruct (String.eqb_spec s "") as [->|].
  - by intros ->.
Qed.

(** C7 on a confidence of 0: the oracle of [unsure] and [unsure_data]
    supplies the confidence 0, and both handlers answer with the confidence
    0.5. *)
Theorem zero_confidence_is_replaced :
  confidence Sample.unsure = Num 0
  /\ RouteData.confidence Sample.unsure_data = Num 0
  /\ (exists body : Body.t,
        handler Sample.unsure Thrown = Success body
        /\ Body.confidence body = Num (1 / 2)
        /\ Body.route_name body = "Flagstaff loop"%string
        /\ Body.location body = "Boulder, CO"%string
        /\ Body.notes body = "steep"%string)
  /\ (exists body : Body.t,
        Extract.handler Sample.unsure_data = Success body
        /\ Body.confidence body = Num (1 / 2)).
Proof.
  split; [done|]. split; [done|]. split.
  - destruct (handler_fallback Sample.unsure Sample.hills Thrown) as (g & _ & Hh);
      [done | simpl; lia | done |].
    exists (assemble Sample.unsure g). split; [done|].
    cbn [assemble Body.confidence Body.route_name Body.location Body.notes].
    split; [|done]. unfold or, truthy, Sample.unsure. cbn [confidence].
    decide_reals. done.
  - eexists. split; [reflexivity|].
    cbn [body_of Body.confidence]. unfold or, truthy, Sample.unsure_data.
    cbn [RouteData.confidence]. decide_reals. done.
Qed.

End C7.

(** * Further properties of the handlers *)

(** ** Smoothing *)

Section SmoothingMore.
Import Part001.

Lemma smoothed_from_last (l : list point) :
  forall prev, last (smoothed_from prev l) = last l.
Proof.
  induction l as [|c [|n rest] IH]; intros prev; [done | done |].
  rewrite smoothed_from_cons.
  rewrite (last_cons_cons _ n rest).
  rewrite <- (IH (mean3 prev (at2 c) (at2 n))).
  destruct (smoothed_from (mean3 prev (at2 c) (at2 n)) (n :: rest)) eqn:E; [|done].
  apply (f_equal length) in E. rewrite smoothed_from_length in E. done.
Qed.

(** X1: the smoothing pass leaves the first and the last point of the
    polyline as they are, and a polyline of fewer than three points is
    returned unchanged. *)
Theorem smooth_endpoints (g : list point) :
  smooth g !! 0%nat = g !! 0%nat
  /\ last (smooth g) = last g
  /\ ((3 <= length g)%nat \/ smooth g = g).
Proof.
  rewrite smooth_smoothed. split; [by destruct g|]. split.
  - destruct g as [|p rest]; [done|]. cbn [smoothed].
    destruct rest as [|c rest]; [done|].
    rewrite (last_cons_cons p c rest), <- (smoothed_from_last (c :: rest) (at2 p)).
    destruct (smoothed_from (at2 p) (c :: rest)) eqn:E; [|done].
    apply (f_equal length) in E. rewrite smoothed_from_length in E. done.
  - destruct g as [|p [|c [|n rest]]]; [by right | by right | by right |].
    left. cbn. lia.
Qed.




End SmoothingMore.

(** ** The nearest neighbour assignment *)

Section NearestMore.
Import Part001.













End NearestMore.

(** ** The fallback polyline *)

Section FallbackMore.
Import Part001.
















End FallbackMore.

(** ** The choice between snapping and fallback *)

Section HandlerMore.
Import Part001.







End HandlerMore.

(** ** The resampling of the oracle-only handlers *)

Section ResamplingMore.

Lemma Rmax_INR (a b : nat) : Rmax (INR a) (INR b) = INR (Nat.max a b).
Proof.
  destruct (Nat.le_ge_cases a b) as [H|H].
  - rewrite Nat.max_r by done. apply Rmax_right. by apply le_INR.
  - rewrite Nat.max_l by done. apply Rmax_left. by apply le_INR.
Qed.

Lemma iterations_of_nat (k : nat) : iterations (of_nat k) = k.
Proof. unfold of_nat. cbn [iterations]. rewrite INR_IZR_INZ, Zceil_IZR. lia. Qed.

(** [Math.max(3, Math.ceil(6 / (n / 30)))] on an array length. *)
Lemma extract_steps_nat (n : nat) :
  (0 < n)%nat ->
  iterations (Extract.steps n) = Nat.max 3 ((180 + n - 1) / n).
Proof.
  intros Hn. unfold Extract.steps.
  assert (Hq : div (Num 6) (div (of_nat n) (Num 30)) = div (of_nat 180) (of_nat n)).
  { unfold of_nat. cbn [div]. f_equal.
    assert (H180 : INR 180 = 180) by (rewrite INR_IZR_INZ; done).
    assert (Hn' : 0 < INR n) by (by apply lt_0_INR).
    rewrite H180. field. lra. }
  rewrite Hq, ceil_div_nat by done. unfold of_nat at 1. cbn [max].
  assert (H3 : 3 = INR 3) by (rewrite INR_IZR_INZ; done).
  rewrite H3, Rmax_INR. apply iterations_of_nat.
Qed.

Lemma extract_interpolated_length (l l' : list point) :
  l <> [] ->
  Extract.interpolated l = Some l' ->
  length l' = if (length l <? 50)%nat
              then ((length l - 1) * Nat.max 3 ((180 + length l - 1) / length l) + 1)%nat
              else length l.
Proof.
  intros Hne H. apply interpolate_length in H. rewrite H.
  rewrite extract_steps_nat; [done|]. destruct l; [done | cbn; lia].
Qed.

Lemma interpolated_grows_witness :
  ramp <> []
  /\ Part000.interpolated ramp = Some ramp_resampled
  /\ (length ramp <= length ramp_resampled)%nat.
Proof.
  assert (Hne : ramp <> []) by discriminate.
  split; [exact Hne|]. split; [reflexivity|].
  apply (interpolated_grows ramp ramp_resampled Hne). reflexivity.
Defined.

Lemma interpolated_idempotent_from_three_witness :
  (3 <= length ramp)%nat
  /\ Part000.interpolated ramp = Some ramp_resampled
  /\ (100 <= length ramp_resampled)%nat
  /\ Part000.interpolated ramp_resampled = Some ramp_resampled.
Proof.
  split; [simpl; lia|]. split; [reflexivity|].
  apply (interpolated_idempotent_from_three ramp ramp_resampled);
    [simpl; lia | reflexivity].
Defined.

(** X14: in api/extract.js every list of two or more points comes out
    with at least 50 points (at least 91 when it had fewer than 50), so
    interpolating the result again returns it unchanged. *)
Theorem extract_interpolation_settles (l l' : list point) :
  (2 <= length l)%nat ->
  Extract.interpolated l = Some l' ->
  (50 <= length l')%nat
  /\ ((length l < 50)%nat -> (91 <= length l')%nat)
  /\ Extract.interpolated l' = Some l'.
Proof.
  intros H2 H.
  assert (Hne : l <> []) by (intros ->; cbn in H2; lia).
  pose proof (extract_interpolated_length l l' Hne H) as Hlen.
  assert (Hcases : (50 <= length l')%nat /\ ((length l < 50)%nat -> (91 <= length l')%nat)).
  { rewrite Hlen. destruct (Nat.ltb_spec (length l) 50) as [Hlt|Hge]; [|lia].
    set (n := length l) in *. set (q := ((180 + n - 1) / n)%nat).
    assert (Hq : (180 <= q * n)%nat).
    { pose proof (Nat.div_mod_eq (180 + n - 1) n) as E.
      pose proof (Nat.mod_upper_bound (180 + n - 1) n ltac:(lia)).
      fold q in E. nia. }
    assert (Hm : (q <= Nat.max 3 q)%nat) by lia.
    set (m := Nat.max 3 q) in *.
    assert ((91 <= (n - 1) * m + 1)%nat); [|lia].
    destruct (Nat.le_gt_cases 90 q); nia. }
  destruct Hcases as [H50 H91]. split; [done|]. split; [done|].
  unfold Extract.interpolated, interpolate.
  by destruct (Nat.ltb_spec (length l') 50); [lia|].
Qed.

Lemma extract_interpolation_settles_witness :
  (2 <= length ramp)%nat
  /\ Extract.interpolated ramp = Some ramp_interpolated
  /\ (50 <= length ramp_interpolated)%nat
  /\ ((length ramp < 50)%nat -> (91 <= length ramp_interpolated)%nat)
  /\ Extract.interpolated ramp_interpolated = Some ramp_interpolated.
Proof.
  split; [simpl; lia|]. split; [reflexivity|].
  apply (extract_interpolation_settles ramp ramp_interpolated);
    [simpl; lia | reflexivity].
Defined.

End ResamplingMore.

(** ** What the interpolation keeps *)

Section InterpolationMore.













End InterpolationMore.

(** ** Code fences around the oracle's answer *)

Section Fences.
Import Front.

Lemma same_eq (a b : text) : same a b = true <-> a = b.
Proof.
  revert b. induction a as [|x a IH]; intros [|y b]; cbn; try done.
  rewrite andb_true_iff, N.eqb_eq, IH. split; [by intros [-> ->] | by intros [= -> ->]].
Qed.

Lemma same_length (a b : text) : length a <> length b -> same a b = false.
Proof.
  intros H. destruct (same a b) eqn:E; [|done].
  apply same_eq in E. by subst.
Qed.

Lemma startsWith_app (p s : text) : startsWith p (p ++ s) = true.
Proof. induction p as [|x p IH]; [done|]. cbn. by rewrite N.eqb_refl, IH. Qed.

Lemma startsWith_split (p s : text) :
  startsWith p s = true -> s = p ++ drop (length p) s.
Proof.
  revert s. induction p as [|x p IH]; intros [|y s]; cbn; try done.
  rewrite andb_true_iff, N.eqb_eq. intros [-> H]. f_equal. by apply IH.
Qed.

(** The closing expression removes a final fence together with the newline
    before it, whatever comes before them. *)
Lemma strip_close_fenced (p : text) : strip_close (p ++ newline ++ fence) = p.
Proof.
  induction p as [|c p IH]; [done|].
  cbn [app strip_close].
  rewrite (same_length (c :: p ++ newline ++ fence) (newline ++ fence)),
    (same_length (c :: p ++ newline ++ fence) fence).
  - cbn [orb]. by rewrite IH.
  - cbn. rewrite length_app. cbn. lia.
  - cbn. rewrite length_app. cbn. lia.
Qed.

(** What the closing expression removes. *)
Lemma strip_close_suffix (s : text) :
  exists suf : text,
    s = strip_close s ++ suf /\ In suf [[]; fence; newline ++ fence].
Proof.
  induction s as [|c s (suf & IH & Hin)].
  - exists []. split; [done | by left].
  - cbn [strip_close].
    destruct (same (c :: s) (newline ++ fence)) eqn:E1.
    { apply same_eq in E1. exists (newline ++ fence). split; [done|]. right. right. by left. }
    destruct (same (c :: s) fence) eqn:E2.
    { apply same_eq in E2. exists fence. split; [done|]. right. by left. }
    cbn [orb]. exists suf. split; [|done]. cbn. by rewrite <- IH.
Qed.

(** What the opening expression removes. *)
Lemma strip_open_prefix (s : text) :
  exists pre : text,
    s = pre ++ strip_open s
    /\ In pre [[]; fence; fence ++ newline; fence ++ json; fence ++ json ++ newline].
Proof.
  unfold strip_open. destruct (startsWith fence s) eqn:E0.
  - apply startsWith_split in E0. change (length fence) with 3%nat in E0.
    set (s1 := drop 3 s) in *.
    destruct (startsWith json s1) eqn:E1.
    + apply startsWith_split in E1. change (length json) with 4%nat in E1.
      set (s2 := drop 4 s1) in *.
      destruct (startsWith newline s2) eqn:E2.
      * apply startsWith_split in E2. change (length newline) with 1%nat in E2.
        exists (fence ++ json ++ newline). split.
        -- rewrite E0, E1, E2 at 1. by rewrite <- !app_assoc.
        -- do 4 right. by left.
      * exists (fence ++ json). split.
        -- rewrite E0, E1 at 1. by rewrite <- !app_assoc.
        -- do 3 right. by left.
    + destruct (startsWith newline s1) eqn:E2.
      * apply startsWith_split in E2. change (length newline) with 1%nat in E2.
        exists (fence ++ newline). split.
        -- rewrite E0, E2 at 1. by rewrite <- !app_assoc.
        -- do 2 right. by left.
      * exists fence. split; [done|]. right. by left.
  - exists []. split; [done | by left].
Qed.

Lemma strip_open_json (r : text) : strip_open (fence ++ json ++ newline ++ r) = r.
Proof.
  unfold strip_open. rewrite startsWith_app.
  change (drop 3 (fence ++ json ++ newline ++ r)) with (json ++ newline ++ r).
  rewrite startsWith_app.
  change (drop 4 (json ++ newline ++ r)) with (newline ++ r).
  by rewrite startsWith_app.
Qed.

Lemma strip_open_plain (r : text) : strip_open (fence ++ newline ++ r) = r.
Proof.
  unfold strip_open. rewrite startsWith_app.
  change (drop 3 (fence ++ newline ++ r)) with (newline ++ r).
  change (startsWith json (newline ++ r)) with false. cbn iota.
  by rewrite startsWith_app.
Qed.

(** X18: an answer wrapped in a fence, with or without the json tag, and
    closed by a newline and a fence is unwrapped to exactly what stands
    between them, whatever that is. *)
Theorem fences_are_removed (p : text) :
  unfence (fence ++ json ++ newline ++ p ++ newline ++ fence) = p
  /\ unfence (fence ++ newline ++ p ++ newline ++ fence) = p.
Proof.
  unfold unfence. split.
  - rewrite startsWith_app, strip_open_json. apply strip_close_fenced.
  - rewrite startsWith_app, strip_open_plain. apply strip_close_fenced.
Qed.

(** X19: the unwrapping only cuts at the two ends.  The text is the result
    between an opening that is empty or a fence with an optional json tag
    and an optional newline, and a closing that is empty or a fence with an
    optional newline before it; a text that does not start with a fence is
    returned as it is, even when it ends with one. *)
Theorem unfence_cuts_the_ends (s : text) :
  (exists pre suf : text,
     s = pre ++ unfence s ++ suf
     /\ In pre [[]; fence; fence ++ newline; fence ++ json; fence ++ json ++ newline]
     /\ In suf [[]; fence; newline ++ fence])
  /\ (startsWith fence s = true \/ unfence s = s).
Proof.
  split.
  - unfold unfence. destruct (startsWith fence s).
    + destruct (strip_open_prefix s) as (pre & Hpre & Hin).
      destruct (strip_close_suffix (strip_open s)) as (suf & Hsuf & Hin').
      exists pre, suf. split; [|done]. rewrite <- Hsuf. exact Hpre.
    + exists [], []. split; [by rewrite app_nil_r|]. split; by left.
  - unfold unfence. destruct (startsWith fence s); [by left | by right].
Qed.

End Fences.

(** ** The front of the handlers *)

Section FrontMore.
Import Front.

Context {P : Type} (trim : text -> text) (parse : text -> option P)
  (msg : messages) (rest : P -> response).

(** X20: a POST with a key and an image, answered by the oracle with a text
    that, once trimmed, is the JSON [p] either bare or wrapped in a json
    fence, is handed to the rest of the handler as the object parsed from
    [p]: fenced and bare answers are treated alike.  This holds for the
    three handlers. *)
Theorem fenced_answer_is_parsed (req : request) (b : body) (content : list block)
    (textContent : block) (p : text) (parsed : P) :
  method req = "POST"%string ->
  req_body req = Some b ->
  missing (image b) = false ->
  find (fun c => String.eqb (type c) "text") content = Some textContent ->
  trim (content_text textContent) = fence ++ json ++ newline ++ p ++ newline ++ fence
  \/ (trim (content_text textContent) = p /\ startsWith fence p = false) ->
  parse p = Some parsed ->
  serve trim parse msg rest true req (OracleOk content) = Routed (rest parsed).
Proof.
  intros Hm Hb Hi Hf Ht Hp. unfold serve. rewrite Hm, Hb, Hi, Hf. cbn.
  assert (Hu : unfence (trim (content_text textContent)) = p).
  { destruct Ht as [-> | [-> Hs]].
    - unfold unfence. rewrite startsWith_app, strip_open_json.
      apply strip_close_fenced.
    - unfold unfence. by rewrite Hs. }
  by rewrite Hu, Hp.
Qed.

(** X21: a route is only answered down the whole chain: the method is
    POST, the key is configured, the body carries an image, the oracle
    answered ok with a text entry, and the unwrapped text was parsed into
    the object the rest of the handler answered for. *)
Theorem routed_only_down_the_chain (apiKey : bool) (req : request) (o : oracle)
    (r : response) :
  serve trim parse msg rest apiKey req o = Routed r ->
  method req = "POST"%string
  /\ apiKey = true
  /\ (exists b, req_body req = Some b /\ missing (image b) = false)
  /\ exists (content : list block) (textContent : block) (parsed : P),
       o = OracleOk content
       /\ find (fun c => String.eqb (type c) "text") content = Some textContent
       /\ parse (unfence (trim (content_text textContent))) = Some parsed
       /\ r = rest parsed.
Proof.
  unfold serve.
  destruct (String.eqb (method req) "OPTIONS"); [done|].
  destruct (String.eqb_spec (method req) "POST") as [Hm|]; [|done]. cbn [negb].
  destruct apiKey; [|done]. cbn [negb].
  destruct (req_body req) as [b|]; [|done].
  destruct (missing (image b)) eqn:Hi; [done|].
  destruct o as [|status errText|content]; [done | done |].
  destruct (find _ content) as [textContent|] eqn:Hf; [|done].
  destruct (parse _) as [parsed|] eqn:Hp; [|done].
  intros [= <-]. split; [done|]. split; [done|]. split; [by exists b|].
  by exists content, textContent, parsed.
Qed.

(** X22: the diagnostic sent with a refusal is a bounded beginning of what
    the oracle sent: at most 300 code units of the error text under the key
    details, or at most 500 code units of the untrimmed text entry under the
    key raw, with status 500. *)
Theorem diagnostics_are_bounded (apiKey : bool) (req : request) (o : oracle)
    (status : nat) (error key : string) (d : text) :
  serve trim parse msg rest apiKey req o = Refused status error (Some (key, d)) ->
  (exists errText : text,
     o = OracleNotOk status errText
     /\ key = "details"%string /\ d = take 300 errText /\ (length d <= 300)%nat)
  \/ (exists (content : list block) (textContent : block),
        o = OracleOk content
        /\ In textContent content
        /\ parse (unfence (trim (content_text textContent))) = None
        /\ key = "raw"%string /\ status = 500%nat
        /\ d = take 500 (content_text textContent) /\ (length d <= 500)%nat).
Proof.
  unfold serve.
  destruct (String.eqb (method req) "OPTIONS"); [done|].
  destruct (String.eqb (method req) "POST"); [|done]. cbn [negb].
  destruct apiKey; [|done]. cbn [negb].
  destruct (req_body req) as [b|]; [|done].
  destruct (missing (image b)); [done|].
  destruct o as [|st errText|content]; [done | |].
  - intros [= <- <- <- <-]. left. exists errText.
    split; [done|]. split; [done|]. split; [done|]. rewrite length_take. lia.
  - destruct (find _ content) as [textContent|] eqn:Hf; [|done].
    destruct (parse _) eqn:Hp; [done|].
    intros [= <- <- <- <-]. right. exists content, textContent.
    split; [done|]. split; [by apply find_some in Hf as [? _]|].
    split; [done|]. split; [done|]. split; [done|]. split; [done|].
    rewrite length_take. lia.
Qed.

End FrontMore.

Section FrontWitnesses.
Import Front.

Lemma fenced_answer_is_parsed_witness :
  method upload = "POST"%string
  /\ req_body upload = Some (Body (Some "aGVsbG8="%string) None)
  /\ missing (image (Body (Some "aGVsbG8="%string) None)) = false
  /\ find (fun c => String.eqb (type c) "text") [Block "text" fenced]
     = Some (Block "text" fenced)
  /\ (content_text (Block "text" fenced)
      = fence ++ json ++ newline ++ payload ++ newline ++ fence
      \/ (content_text (Block "text" fenced) = payload
          /\ startsWith fence payload = false))
  /\ Some (Sample.bare Sample.hills) = Some (Sample.bare Sample.hills)
  /\ serve (fun t => t) (fun _ => Some (Sample.bare Sample.hills)) messages_001
       (fun routeInfo => Part001.handler routeInfo Part001.Thrown)
       true upload (OracleOk [Block "text" fenced])
     = Routed (Part001.handler (Sample.bare Sample.hills) Part001.Thrown).
Proof.
  split; [reflexivity|]. split; [reflexivity|]. split; [reflexivity|].
  split; [reflexivity|]. split; [left; reflexivity|]. split; [reflexivity|].
  apply (fenced_answer_is_parsed (fun t => t) (fun _ => Some (Sample.bare Sample.hills))
           messages_001 (fun routeInfo => Part001.handler routeInfo Part001.Thrown)
           upload (Body (Some "aGVsbG8="%string) None) [Block "text" fenced]
           (Block "text" fenced) payload (Sample.bare Sample.hills));
    [reflexivity | reflexivity | reflexivity | reflexivity | left; reflexivity
     | reflexivity].
Defined.

Lemma routed_only_down_the_chain_witness :
  part_001 (fun t => t) (fun _ => Some (Sample.bare Sample.hills)) true upload
    (saying fenced) Part001.Thrown
  = Routed (Part001.handler (Sample.bare Sample.hills) Part001.Thrown)
  /\ (method upload = "POST"%string
      /\ true = true
      /\ (exists b, req_body upload = Some b /\ missing (image b) = false)
      /\ exists (content : list block) (textContent : block)
           (parsed : Part001.routeInfo),
           saying fenced = OracleOk content
           /\ find (fun c => String.eqb (type c) "text") content = Some textContent
           /\ Some (Sample.bare Sample.hills) = Some parsed
           /\ Part001.handler (Sample.bare Sample.hills) Part001.Thrown
              = Part001.handler parsed Part001.Thrown).
Proof.
  split; [reflexivity|].
  apply (routed_only_down_the_chain (fun t => t)
           (fun _ => Some (Sample.bare Sample.hills)) messages_001
           (fun routeInfo => Part001.handler routeInfo Part001.Thrown)
           true upload (saying fenced)
           (Part001.handler (Sample.bare Sample.hills) Part001.Thrown)).
  reflexivity.
Defined.

Lemma diagnostics_are_bounded_witness :
  extract (fun t => t) (fun _ => None) true upload (OracleNotOk 529 (units "overloaded"))
  = Refused 529 "AI API error (status 529)"
      (Some ("details"%string, units "overloaded"))
  /\ ((exists errText : text,
         OracleNotOk 529 (units "overloaded") = OracleNotOk 529 errText
         /\ "details"%string = "details"%string
         /\ units "overloaded" = take 300 errText
         /\ (length (units "overloaded") <= 300)%nat)
      \/ (exists (content : list block) (textContent : block),
            OracleNotOk 529 (units "overloaded") = OracleOk content
            /\ In textContent content
            /\ @None RouteData.t = None
            /\ "details"%string = "raw"%string /\ 529%nat = 500%nat
            /\ units "overloaded" = take 500 (content_text textContent)
            /\ (length (units "overloaded") <= 500)%nat)).
Proof.
  split; [reflexivity|].
  apply (diagnostics_are_bounded (fun t => t) (fun _ : text => @None RouteData.t)
           messages_000 Extract.handler true upload
           (OracleNotOk 529 (units "overloaded")) 529
           "AI API error (status 529)" "details" (units "overloaded")).
  reflexivity.
Defined.

End FrontWitnesses.

Section PointCount.

(** X23: for an oracle answer with n waypoints, n at least 2, part_000
    answers 200 with exactly (n - 1) * ceil(max(150, 3 n) / n) + 1 points
    when n is below 100, and with the n waypoints themselves otherwise. *)
Theorem part_000_point_count (routeData : RouteData.t) (l : list point) :
  RouteData.waypoints routeData = Some l ->
  (2 <= length l)%nat ->
  exists g : list point,
    Part000.handler routeData = Success (body_of routeData g)
    /\ length g
       = (if (length l <? 100)%nat
          then ((length l - 1)
                * ((Nat.max 150 (length l * 3) + length l - 1) / length l) + 1)%nat
          else length l)
    /\ ((100 <= length l)%nat -> g = l).
Proof.
  intros Hw Hlen.
  assert (Hne : l <> []) by (intros ->; cbn in Hlen; lia).
  destruct (interpolate_Some 100 Part000.stepsPerSeg l Hne) as [g Hg].
  change (Part000.interpolated l = Some g) in Hg.
  exists g. split; [by apply (respond_enough Part000.interpolated routeData l g)|].
  split; [by apply interpolated_length|].
  intros H100. rewrite (interpolated_unchanged l H100) in Hg. by simplify_eq.
Qed.

Lemma part_000_point_count_witness :
  RouteData.waypoints (RouteData.Build None None Undefined None (Some ramp)) = Some ramp
  /\ (2 <= length ramp)%nat
  /\ exists g : list point,
       Part000.handler (RouteData.Build None None Undefined None (Some ramp))
       = Success (body_of (RouteData.Build None None Undefined None (Some ramp)) g)
       /\ length g
          = (if (length ramp <? 100)%nat
             then ((length ramp - 1)
                   * ((Nat.max 150 (length ramp * 3) + length ramp - 1) / length ramp)
                   + 1)%nat
             else length ramp)
       /\ ((100 <= length ramp)%nat -> g = ramp).
Proof.
  split; [reflexivity|]. split; [simpl; lia|].
  apply (part_000_point_count (RouteData.Build None None Undefined None (Some ramp)) ramp);
    [reflexivity | simpl; lia].
Defined.

End PointCount.
